(** * eeproxy: the execution-engine proxy of goloop

    A shallow embedding of [package eeproxy] (the per-connection proxy:
    call-frame stack, reservation flag, inbound message dispatcher) and the
    properties of its state machine.

    Conventions of the embedding.
    - A Go pointer that may be [nil] is an [option]; a [[]byte] that is
      compared with [nil] is an [option bytes].
    - Go's [error] is [option string]: [None] is [nil], [Some s] an error
      whose message is [s].
    - Every call that leaves the proxy (transport, manager, host context)
      and every call that enters it is appended to a trace; the value a
      collaborator returns is a function of the trace so far, collected in
      a [World].
    - A host context may call back into the proxy while one of its callbacks
      runs (the proxy lock is released around callbacks for that purpose);
      the world says which calls it makes.
    - A nil dereference is the outcome [Panics].
    - The mutex [p.lock] is not a field of the model: every method runs to
      completion before the next one starts, and the places where the lock is
      taken and dropped are kept as comments. *)

From Stdlib Require Import ZArith.
From stdpp Require Import base option list strings pretty gmap.

Open Scope string_scope.

Module eeproxy.

(** ** Message tags *)

(** [type Message uint] and its constants. *)
Definition Message := N.

Definition msgVERSION    : Message := 0%N.
Definition msgINVOKE     : Message := 1%N.
Definition msgRESULT     : Message := 2%N.
Definition msgGETVALUE   : Message := 3%N.
Definition msgSETVALUE   : Message := 4%N.
Definition msgCALL       : Message := 5%N.
Definition msgEVENT      : Message := 6%N.
Definition msgGETINFO    : Message := 7%N.
Definition msgGETBALANCE : Message := 8%N.
Definition msgGETAPI     : Message := 9%N.

Definition bytes := list Byte.byte.

(** Go's [error]: [None] is [nil]. *)
Definition error := option string.

(** The result of a call that returns [(value, error)]. *)
Inductive Fallible (T : Type) : Type :=
| Ok (v : T)
| Fail (err : string).
Arguments Ok {T} v.
Arguments Fail {T} err.

(** What running a piece of Go code comes to: it returns, or the goroutine
    panics (here: on a nil dereference). *)
Inductive Outcome (A : Type) : Type :=
| Returns (a : A)
| Panics.
Arguments Returns {A} a.
Arguments Panics {A}.

Section Proxy.

(** Types that the package takes from the rest of the repository:
    [module.Address], [codec.TypedObj], [scoreapi.Info], the value
    [common.EncodeAny] produces, the engine kind [scoreType] (declared next
    to the manager) and the values of the interface [CallContext]. *)
Context {Address TypedObj APIInfo Encoded scoreType CallContext : Type}.

(** [codec.Nil], the codec's marker for "no value". *)
Variable codec_Nil : TypedObj.

(** The manager's table [scoreNameToType] and the zero value of
    [scoreType]. *)
Variable scoreNameToType : gmap string scoreType.
Variable scoreType_zero : scoreType.

(** ** Payloads *)

Record versionMessage := {
  ver_Version : Z;
  ver_UID     : string;
  ver_Type    : string
}.

Record invokeMessage := {
  inv_Code   : string;
  inv_IsQry  : bool;
  inv_From   : Address;
  inv_To     : Address;
  inv_Value  : Z;
  inv_Limit  : Z;
  inv_Method : string;
  inv_Params : option TypedObj
}.

Record getValueMessage := {
  gv_Success : bool;
  gv_Value   : option bytes
}.

Record setValueMessage := {
  sv_Key      : bytes;
  sv_IsDelete : bool;
  sv_Value    : option bytes
}.

Record callMessage := {
  call_To     : Address;
  call_Value  : Z;
  call_Limit  : Z;
  call_Method : string;
  call_Params : option TypedObj
}.

Record eventMessage := {
  ev_Indexed : list bytes;
  ev_Data    : list bytes
}.

Record getAPIMessage := {
  api_Status : Z;
  api_Info   : option APIInfo
}.

Record resultMessage := {
  res_Status   : Z;
  res_StepUsed : Z;
  res_Result   : option TypedObj
}.

(** [codec.MP.UnmarshalFromBytes] at each type it is used at, and
    [common.EncodeAny]. *)
Record Codec := {
  unmarshal_version : bytes -> Fallible versionMessage;
  unmarshal_result  : bytes -> Fallible resultMessage;
  unmarshal_key     : bytes -> Fallible bytes;
  unmarshal_set     : bytes -> Fallible setValueMessage;
  unmarshal_call    : bytes -> Fallible callMessage;
  unmarshal_event   : bytes -> Fallible eventMessage;
  unmarshal_address : bytes -> Fallible Address;
  unmarshal_getAPI  : bytes -> Fallible getAPIMessage;
  EncodeAny         : option TypedObj -> Fallible Encoded
}.

Variable MP : Codec.

(** The second argument of [conn.Send]. *)
Inductive Payload :=
| PInvoke (m : invokeMessage)
| PCode (code : string)
| PResult (m : resultMessage)
| PGetValue (m : getValueMessage)
| PEncoded (eo : Encoded)
| PBalance (balance : Z).

(** ** Frames and the proxy record *)

#[warnings="-register-all"] Inductive callFrame := CallFrame {
  addr : option Address;
  ctx  : CallContext;
  prev : option callFrame
}.

Record proxy := {
  reserved    : bool;
  version     : Z;
  uid         : string;
  p_scoreType : scoreType;
  frame       : option callFrame
}.

Definition set_reserved (b : bool) (p : proxy) : proxy :=
  {| reserved := b; version := version p; uid := uid p;
     p_scoreType := p_scoreType p; frame := frame p |}.

Definition set_version (v : Z) (p : proxy) : proxy :=
  {| reserved := reserved p; version := v; uid := uid p;
     p_scoreType := p_scoreType p; frame := frame p |}.

Definition set_uid (u : string) (p : proxy) : proxy :=
  {| reserved := reserved p; version := version p; uid := u;
     p_scoreType := p_scoreType p; frame := frame p |}.

Definition set_scoreType (t : scoreType) (p : proxy) : proxy :=
  {| reserved := reserved p; version := version p; uid := uid p;
     p_scoreType := t; frame := frame p |}.

Definition set_frame (f : option callFrame) (p : proxy) : proxy :=
  {| reserved := reserved p; version := version p; uid := uid p;
     p_scoreType := p_scoreType p; frame := f |}.

(** [newConnection]: every field but [mgr] and [conn] has its zero
    value. *)
Definition newConnection : proxy :=
  {| reserved := false; version := 0; uid := EmptyString;
     p_scoreType := scoreType_zero; frame := None |}.

(** Number of frames reachable from a frame through [prev]. *)
Fixpoint frame_depth (f : callFrame) : nat :=
  match f with
  | CallFrame _ _ None => 1
  | CallFrame _ _ (Some g) => S (frame_depth g)
  end.

Definition depth (p : proxy) : nat :=
  match frame p with
  | None => 0
  | Some f => frame_depth f
  end.

(** [f == nil] on a frame pointer. *)
Definition is_nil (f : option callFrame) : bool :=
  match f with
  | None => true
  | Some _ => false
  end.

(** ** Calls in and out of the proxy *)

(** The methods of the interface [Proxy], which a host holds. *)
Inductive HostCall :=
| CallInvoke (c : CallContext) (code : string) (isQuery : bool)
    (from to : Address) (value limit : Z) (method : string)
    (params : option TypedObj)
| CallSendResult (c : CallContext) (status : Z) (steps : Z)
    (result : option TypedObj)
| CallGetAPI (c : CallContext) (code : string)
| CallRelease
| CallKill.

(** Everything that drives a proxy: the host through [Proxy], the manager
    through [reserve] and [Close], the transport through
    [HandleMessage]. *)
Inductive Action :=
| Host (c : HostCall)
| Reserve
| CloseProxy
| Deliver (msg : Message) (data : bytes).

Inductive Event :=
(* a method of the proxy is entered *)
| EvEnter (a : Action)
(* ipc.Connection *)
| EvSend (msg : Message) (payload : Payload)
| EvClose
(* manager *)
| EvOnReady (t : scoreType) (p : proxy)
| EvKill (u : string)
(* CallContext *)
| EvGetValue (c : CallContext) (key : bytes)
| EvSetValue (c : CallContext) (key : bytes) (value : option bytes)
| EvDeleteValue (c : CallContext) (key : bytes)
| EvGetInfo (c : CallContext)
| EvGetBalance (c : CallContext) (a : Address)
| EvOnEvent (c : CallContext) (a : option Address) (indexed data : list bytes)
| EvOnResult (c : CallContext) (status : Z) (steps : Z)
    (result : option TypedObj)
| EvOnCall (c : CallContext) (from : option Address) (to : Address)
    (value limit : Z) (method : string) (params : option TypedObj)
| EvOnAPI (c : CallContext) (status : Z) (info : option APIInfo).

(** The trace, newest event first. *)
Definition Trace := list Event.

(** The collaborators. Each field gives what the collaborator returns, from
    the trace before the call and the arguments. [host_reenters] gives, from
    the trace that ends in a [CallContext] callback, the calls the host makes
    on the proxy before that callback returns. *)
Record World := {
  conn_Send       : Trace -> Message -> Payload -> error;
  conn_Close      : Trace -> error;
  mgr_onReady     : Trace -> scoreType -> proxy -> error;
  mgr_Kill        : Trace -> string -> error;
  ctx_GetValue    : Trace -> CallContext -> bytes -> Fallible (option bytes);
  ctx_SetValue    : Trace -> CallContext -> bytes -> option bytes -> error;
  ctx_DeleteValue : Trace -> CallContext -> bytes -> error;
  ctx_GetInfo     : Trace -> CallContext -> option TypedObj;
  ctx_GetBalance  : Trace -> CallContext -> Address -> Z;
  host_reenters   : Trace -> list HostCall
}.

Variable w : World.

(** ** The monad of the embedding: proxy state, trace, panic *)

Record State := {
  st_proxy : proxy;
  st_trace : Trace
}.

Definition M (A : Type) : Type := State -> Outcome A * State.

Definition ret {A} (a : A) : M A := fun s => (Returns a, s).

Definition bind {A B} (m : M A) (k : A -> M B) : M B :=
  fun s =>
    match m s with
    | (Returns a, s') => k a s'
    | (Panics, s') => (Panics, s')
    end.

Definition panic {A} : M A := fun s => (Panics, s).

(** Read the proxy record. *)
Definition this : M proxy := fun s => (Returns (st_proxy s), s).

(** Assign to fields of the proxy record. *)
Definition assign (f : proxy -> proxy) : M unit :=
  fun s => (Returns tt,
            {| st_proxy := f (st_proxy s); st_trace := st_trace s |}).

(** Record a call and take its result from the world. *)
Definition extern {A} (e : Event) (reply : Trace -> A) : M A :=
  fun s => (Returns (reply (st_trace s)),
            {| st_proxy := st_proxy s; st_trace := e :: st_trace s |}).

Definition history : M Trace := fun s => (Returns (st_trace s), s).


Notation "x <- m ;; k" := (bind m (fun x => k))
  (at level 100, m at next level, right associativity).
Notation "m ;;; k" := (bind m (fun _ => k))
  (at level 100, right associativity).

(** [p.conn.Send(msg, payload)] *)
Definition Send (msg : Message) (payload : Payload) : M error :=
  extern (EvSend msg payload) (fun tr => conn_Send w tr msg payload).

(** [p.conn.Close()] *)
Definition connClose : M error :=
  extern EvClose (fun tr => conn_Close w tr).

(** [p.mgr.onReady(p.scoreType, p)] *)
Definition onReady : M error :=
  p <- this ;;
  extern (EvOnReady (p_scoreType p) p)
         (fun tr => mgr_onReady w tr (p_scoreType p) p).

(** ** The methods of [Proxy] *)

(** [func (p *proxy) Invoke]. [from], [to], [value] and [limit] are taken
    non-nil. *)
Definition Invoke (c : CallContext) (code : string) (isQuery : bool)
    (from to : Address) (value limit : Z) (method : string)
    (params : option TypedObj) : M error :=
  let m := {| inv_Code := code; inv_IsQry := isQuery;
              inv_From := from; inv_To := to;
              inv_Value := value; inv_Limit := limit;
              inv_Method := method; inv_Params := params |} in
  (* p.lock.Lock(); defer p.lock.Unlock() *)
  p <- this ;;
  assign (set_frame (Some {| addr := Some to; ctx := c; prev := frame p |})) ;;;
  Send msgINVOKE (PInvoke m).

(** [func (p *proxy) GetAPI] *)
Definition GetAPI (c : CallContext) (code : string) : M error :=
  (* p.lock.Lock(); defer p.lock.Unlock() *)
  p <- this ;;
  assign (set_frame (Some {| addr := None; ctx := c; prev := frame p |})) ;;;
  Send msgGETAPI (PCode code).

(** [func (p *proxy) reserve] *)
Definition reserve : M bool :=
  (* p.lock.Lock(); defer p.lock.Unlock() *)
  p <- this ;;
  if reserved p then ret false
  else
    assign (set_reserved true) ;;;
    ret true.

(** [func (p *proxy) Release]. The [log.Printf] is left out. *)
Definition Release : M unit :=
  (* p.lock.Lock() *)
  p <- this ;;
  if negb (reserved p) then
    (* p.lock.Unlock() *)
    ret tt
  else
    assign (set_reserved false) ;;;
    p <- this ;;
    match frame p with
    | None =>
        (* p.lock.Unlock() *)
        err <- onReady ;;
        match err with
        | Some _ => connClose ;;; ret tt
        | None => ret tt
        end
    | Some _ =>
        (* p.lock.Unlock() *)
        ret tt
    end.

(** [func (p *proxy) SendResult]. [configEnableDebug] is false; [steps] is
    taken non-nil. *)
Definition SendResult (c : CallContext) (status : Z) (steps : Z)
    (result : option TypedObj) : M error :=
  let result :=
    match result with
    | None => Some codec_Nil
    | Some r => Some r
    end in
  let m := {| res_Status := status; res_StepUsed := steps;
              res_Result := result |} in
  Send msgRESULT (PResult m).

(** [func (p *proxy) Close] *)
Definition Close : M error := connClose.

(** [func (p *proxy) Kill] *)
Definition Kill : M error :=
  (* p.lock.Lock(); defer p.lock.Unlock() *)
  p <- this ;;
  extern (EvKill (uid p)) (fun tr => mgr_Kill w tr (uid p)).

(** What a method hands back to its caller. *)
Inductive Retval :=
| RetError (e : error)
| RetBool (b : bool)
| RetVoid.

(** The host calls a method of [Proxy]. *)
Definition host_call (c : HostCall) : M Retval :=
  extern (EvEnter (Host c)) (fun _ => tt) ;;;
  match c with
  | CallInvoke c code isQuery from to value limit method params =>
      e <- Invoke c code isQuery from to value limit method params ;;
      ret (RetError e)
  | CallSendResult c status steps result =>
      e <- SendResult c status steps result ;;
      ret (RetError e)
  | CallGetAPI c code =>
      e <- GetAPI c code ;;
      ret (RetError e)
  | CallRelease => Release ;;; ret RetVoid
  | CallKill => e <- Kill ;; ret (RetError e)
  end.

Fixpoint host_calls (cs : list HostCall) : M unit :=
  match cs with
  | [] => ret tt
  | c :: cs => host_call c ;;; host_calls cs
  end.

(** A call of a method of [CallContext]: the call is recorded, the host
    makes its own calls on the proxy, the method returns. *)
Definition callback {A} (e : Event) (reply : Trace -> A) : M A :=
  a <- extern e reply ;;
  tr <- history ;;
  host_calls (host_reenters w tr) ;;;
  ret a.

(** [p.frame], dereferenced. *)
Definition top : M callFrame :=
  p <- this ;;
  match frame p with
  | None => panic
  | Some f => ret f
  end.

(** The end of the [msgRESULT] and [msgGETAPI] cases. *)
Definition readiness : M error :=
  (* p.lock.Lock() *)
  p <- this ;;
  if is_nil (frame p) && negb (reserved p) then
    (* p.lock.Unlock() *)
    onReady
  else
    (* p.lock.Unlock() *)
    ret None.

(** ** [func (p *proxy) HandleMessage], case by case *)

Definition caseVERSION (data : bytes) : M error :=
  match unmarshal_version MP data with
  | Fail err => ret (Some err)
  | Ok m =>
      assign (set_version (ver_Version m)) ;;;
      assign (set_uid (ver_UID m)) ;;;
      match scoreNameToType !! ver_Type m with
      | None => ret (Some ("UnknownSCOREName(" +:+ ver_Type m +:+ ")"))
      | Some t =>
          assign (set_scoreType t) ;;;
          onReady
      end
  end.

Definition caseRESULT (data : bytes) : M error :=
  match unmarshal_result MP data with
  | Fail err => ret (Some err)
  | Ok m =>
      (* p.lock.Lock() *)
      f <- top ;;
      assign (set_frame (prev f)) ;;;
      (* p.lock.Unlock() *)
      callback (EvOnResult (ctx f) (res_Status m) (res_StepUsed m)
                           (res_Result m)) (fun _ => tt) ;;;
      readiness
  end.

Definition caseGETVALUE (data : bytes) : M error :=
  match unmarshal_key MP data with
  | Fail err => ret (Some err)
  | Ok key =>
      f <- top ;;
      r <- callback (EvGetValue (ctx f) key)
                    (fun tr => ctx_GetValue w tr (ctx f) key) ;;
      match r with
      | Fail err => ret (Some err)
      | Ok value =>
          let m :=
            match value with
            | Some v => {| gv_Success := true; gv_Value := Some v |}
            | None => {| gv_Success := false; gv_Value := None |}
            end in
          Send msgGETVALUE (PGetValue m)
      end
  end.

Definition caseSETVALUE (data : bytes) : M error :=
  match unmarshal_set MP data with
  | Fail err => ret (Some err)
  | Ok m =>
      f <- top ;;
      if sv_IsDelete m then
        callback (EvDeleteValue (ctx f) (sv_Key m))
                 (fun tr => ctx_DeleteValue w tr (ctx f) (sv_Key m))
      else
        callback (EvSetValue (ctx f) (sv_Key m) (sv_Value m))
                 (fun tr => ctx_SetValue w tr (ctx f) (sv_Key m) (sv_Value m))
  end.

Definition caseCALL (data : bytes) : M error :=
  match unmarshal_call MP data with
  | Fail err => ret (Some err)
  | Ok m =>
      f <- top ;;
      callback (EvOnCall (ctx f) (addr f) (call_To m) (call_Value m)
                         (call_Limit m) (call_Method m) (call_Params m))
               (fun _ => tt) ;;;
      ret None
  end.

Definition caseEVENT (data : bytes) : M error :=
  match unmarshal_event MP data with
  | Fail err => ret (Some err)
  | Ok m =>
      f <- top ;;
      callback (EvOnEvent (ctx f) (addr f) (ev_Indexed m) (ev_Data m))
               (fun _ => tt) ;;;
      ret None
  end.

Definition caseGETINFO : M error :=
  f <- top ;;
  v <- callback (EvGetInfo (ctx f)) (fun tr => ctx_GetInfo w tr (ctx f)) ;;
  match EncodeAny MP v with
  | Fail err => ret (Some err)
  | Ok eo => Send msgGETINFO (PEncoded eo)
  end.

Definition caseGETBALANCE (data : bytes) : M error :=
  match unmarshal_address MP data with
  | Fail err => ret (Some err)
  | Ok a =>
      f <- top ;;
      balance <- callback (EvGetBalance (ctx f) a)
                          (fun tr => ctx_GetBalance w tr (ctx f) a) ;;
      Send msgGETBALANCE (PBalance balance)
  end.

Definition caseGETAPI (data : bytes) : M error :=
  match unmarshal_getAPI MP data with
  | Fail err => ret (Some err)
  | Ok m =>
      (* p.lock.Lock() *)
      f <- top ;;
      assign (set_frame (prev f)) ;;;
      (* p.lock.Unlock() *)
      callback (EvOnAPI (ctx f) (api_Status m) (api_Info m)) (fun _ => tt) ;;;
      readiness
  end.

Definition HandleMessage (msg : Message) (data : bytes) : M error :=
  if (msg =? msgVERSION)%N then caseVERSION data
  else if (msg =? msgRESULT)%N then caseRESULT data
  else if (msg =? msgGETVALUE)%N then caseGETVALUE data
  else if (msg =? msgSETVALUE)%N then caseSETVALUE data
  else if (msg =? msgCALL)%N then caseCALL data
  else if (msg =? msgEVENT)%N then caseEVENT data
  else if (msg =? msgGETINFO)%N then caseGETINFO
  else if (msg =? msgGETBALANCE)%N then caseGETBALANCE data
  else if (msg =? msgGETAPI)%N then caseGETAPI data
  else ret (Some ("UnknownMessage(" +:+ pretty msg +:+ ")")).

(** ** Driving the proxy *)

Definition step (a : Action) : M Retval :=
  match a with
  | Host c => host_call c
  | Reserve =>
      extern (EvEnter Reserve) (fun _ => tt) ;;;
      b <- reserve ;;
      ret (RetBool b)
  | CloseProxy =>
      extern (EvEnter CloseProxy) (fun _ => tt) ;;;
      e <- Close ;;
      ret (RetError e)
  | Deliver msg data =>
      extern (EvEnter (Deliver msg data)) (fun _ => tt) ;;;
      e <- HandleMessage msg data ;;
      ret (RetError e)
  end.

(** The actions are run in order; a panic ends the run. *)
Fixpoint run (acts : list Action) : M (list Retval) :=
  match acts with
  | [] => ret []
  | a :: acts =>
      r <- step a ;;
      rs <- run acts ;;
      ret (r :: rs)
  end.

(** The state of a proxy that has just been created. *)
Definition initial : State :=
  {| st_proxy := newConnection; st_trace := [] |}.

(** ** Reading a state and a trace *)

(** The fields the [VERSION] message fills in. *)
Definition identity (p : proxy) : Z * string * scoreType :=
  (version p, uid p, p_scoreType p).

(** A proxy the manager may hand out: nothing in flight and not reserved. *)
Definition idle (p : proxy) : bool :=
  is_nil (frame p) && negb (reserved p).

Fixpoint count (f : Event -> bool) (tr : Trace) : nat :=
  match tr with
  | [] => 0
  | e :: tr => (if f e then 1 else 0) + count f tr
  end.

(** The host enters [Invoke] or [GetAPI]. *)
Definition is_push (e : Event) : bool :=
  match e with
  | EvEnter (Host (CallInvoke _ _ _ _ _ _ _ _ _)) => true
  | EvEnter (Host (CallGetAPI _ _)) => true
  | _ => false
  end.


(** The host enters [Release]. *)
Definition is_release (e : Event) : bool :=
  match e with
  | EvEnter (Host CallRelease) => true
  | _ => false
  end.

(** The manager is told the proxy is ready. *)
Definition is_ready (e : Event) : bool :=
  match e with
  | EvOnReady _ _ => true
  | _ => false
  end.

(** The proxy closes its transport. *)
Definition is_close (e : Event) : bool :=
  match e with
  | EvClose => true
  | _ => false
  end.

Definition readies (tr : Trace) : nat := count is_ready tr.
Definition pushes (tr : Trace) : nat := count is_push tr.
Definition releases (tr : Trace) : nat := count is_release tr.




(** The error of decoding the payload of a message that is answered from
    the frame stack, if there is one. [GETINFO] has no payload. *)
Definition decode_error (msg : Message) (data : bytes) : error :=
  let err {T} (r : Fallible T) : error :=
    match r with
    | Ok _ => None
    | Fail e => Some e
    end in
  if (msg =? msgRESULT)%N then err (unmarshal_result MP data)
  else if (msg =? msgGETVALUE)%N then err (unmarshal_key MP data)
  else if (msg =? msgSETVALUE)%N then err (unmarshal_set MP data)
  else if (msg =? msgCALL)%N then err (unmarshal_call MP data)
  else if (msg =? msgEVENT)%N then err (unmarshal_event MP data)
  else if (msg =? msgGETBALANCE)%N then err (unmarshal_address MP data)
  else if (msg =? msgGETAPI)%N then err (unmarshal_getAPI MP data)
  else None.

(** The messages that are answered from the frame stack: the intermediate
    ones and the two terminal ones. *)
Definition uses_frame (msg : Message) : bool :=
  (msg =? msgRESULT)%N || (msg =? msgGETVALUE)%N || (msg =? msgSETVALUE)%N
  || (msg =? msgCALL)%N || (msg =? msgEVENT)%N || (msg =? msgGETINFO)%N
  || (msg =? msgGETBALANCE)%N || (msg =? msgGETAPI)%N.

(** The state in which a [CallContext] callback returns: the call is on the
    trace and the host has made its calls. *)
Definition reentered (e : Event) (s : State) : State :=
  snd (host_calls (host_reenters w (e :: st_trace s))
         {| st_proxy := st_proxy s; st_trace := e :: st_trace s |}).

(** ** Relations between the state before and the state after *)

(** The identity fields are the same. *)
Definition same_identity (s s' : State) : Prop :=
  identity (st_proxy s') = identity (st_proxy s).


(** A reservation is still there unless [Release] was entered. *)
Definition reserved_kept (s s' : State) : Prop :=
  releases (st_trace s) <= releases (st_trace s')
  /\ (releases (st_trace s') = releases (st_trace s) ->
      reserved (st_proxy s) = true -> reserved (st_proxy s') = true).


(** ** Further readings of a state and a trace *)

(** The contexts of the frames of a stack, innermost first. *)
Fixpoint frame_contexts (f : callFrame) : list CallContext :=
  match f with
  | CallFrame _ c None => [c]
  | CallFrame _ c (Some g) => c :: frame_contexts g
  end.

Definition contexts (p : proxy) : list CallContext :=
  match frame p with
  | None => []
  | Some f => frame_contexts f
  end.

(** [in_flight tr stk]: read oldest event first, the trace [tr] pushes a
    context for every [Invoke] and [GetAPI] the host enters, every terminal
    callback ([OnResult], [OnAPI]) goes to the context on top and pops it,
    and [stk] is what is left, innermost first. *)
Fixpoint in_flight (tr : Trace) (stk : list CallContext) : Prop :=
  match tr with
  | [] => stk = []
  | EvEnter (Host (CallInvoke c _ _ _ _ _ _ _ _)) :: before =>
      exists rest, stk = c :: rest /\ in_flight before rest
  | EvEnter (Host (CallGetAPI c _)) :: before =>
      exists rest, stk = c :: rest /\ in_flight before rest
  | EvOnResult c _ _ _ :: before => in_flight before (c :: stk)
  | EvOnAPI c _ _ :: before => in_flight before (c :: stk)
  | _ :: before => in_flight before stk
  end.

(** A call of [conn.Send] carries the payload of its tag; a [RESULT] has a
    result, and a [GETVALUE] reply reports success exactly when it has a
    value. *)
Definition sent_ok (e : Event) : bool :=
  match e with
  | EvSend msg (PInvoke _) => (msg =? msgINVOKE)%N
  | EvSend msg (PCode _) => (msg =? msgGETAPI)%N
  | EvSend msg (PResult m) =>
      (msg =? msgRESULT)%N
      && match res_Result m with Some _ => true | None => false end
  | EvSend msg (PGetValue m) =>
      (msg =? msgGETVALUE)%N
      && eqb (gv_Success m)
             match gv_Value m with Some _ => true | None => false end
  | EvSend msg (PEncoded _) => (msg =? msgGETINFO)%N
  | EvSend msg (PBalance _) => (msg =? msgGETBALANCE)%N
  | _ => true
  end.

(** Messages handed to the transport on a tag, and messages the transport
    delivered on a tag. *)
Definition sent (tag : Message) (tr : Trace) : nat :=
  count (fun e => match e with
                  | EvSend msg _ => (msg =? tag)%N
                  | _ => false
                  end) tr.

Definition delivered (tag : Message) (tr : Trace) : nat :=
  count (fun e => match e with
                  | EvEnter (Deliver msg _) => (msg =? tag)%N
                  | _ => false
                  end) tr.

(** Entries of [Invoke], [GetAPI], [SendResult] and [Close]. *)
Definition invokes (tr : Trace) : nat :=
  count (fun e => match e with
                  | EvEnter (Host (CallInvoke _ _ _ _ _ _ _ _ _)) => true
                  | _ => false
                  end) tr.

Definition getapis (tr : Trace) : nat :=
  count (fun e => match e with
                  | EvEnter (Host (CallGetAPI _ _)) => true
                  | _ => false
                  end) tr.

Definition sendresults (tr : Trace) : nat :=
  count (fun e => match e with
                  | EvEnter (Host (CallSendResult _ _ _ _)) => true
                  | _ => false
                  end) tr.

Definition close_calls (tr : Trace) : nat :=
  count (fun e => match e with
                  | EvEnter CloseProxy => true
                  | _ => false
                  end) tr.

Definition closes (tr : Trace) : nat := count is_close tr.

(** Calls of the terminal callbacks [OnResult] and [OnAPI]. *)
Definition terminal_callbacks (tr : Trace) : nat :=
  count (fun e => match e with
                  | EvOnResult _ _ _ _ => true
                  | EvOnAPI _ _ _ => true
                  | _ => false
                  end) tr.

(** The six intermediate messages. *)
Definition intermediate (msg : Message) : bool :=
  (msg =? msgGETVALUE)%N || (msg =? msgSETVALUE)%N || (msg =? msgCALL)%N
  || (msg =? msgEVENT)%N || (msg =? msgGETINFO)%N
  || (msg =? msgGETBALANCE)%N.

(** The trace accounts for the stack. *)
Definition stack_kept (s s' : State) : Prop :=
  in_flight (st_trace s) (contexts (st_proxy s)) ->
  in_flight (st_trace s') (contexts (st_proxy s')).

(** Every send is as [sent_ok] wants it. *)
Definition sends_kept (s s' : State) : Prop :=
  forallb sent_ok (st_trace s) = true ->
  forallb sent_ok (st_trace s') = true.

(** One request is sent for every call of the host, at most one reply for
    every request of the engine, and the transport is closed at most once
    for every [Close] and [Release]. *)
Definition accounted (s s' : State) : Prop :=
  sent msgINVOKE (st_trace s') + invokes (st_trace s)
  = sent msgINVOKE (st_trace s) + invokes (st_trace s')
  /\ sent msgGETAPI (st_trace s') + getapis (st_trace s)
     = sent msgGETAPI (st_trace s) + getapis (st_trace s')
  /\ sent msgRESULT (st_trace s') + sendresults (st_trace s)
     = sent msgRESULT (st_trace s) + sendresults (st_trace s')
  /\ sent msgGETVALUE (st_trace s') + delivered msgGETVALUE (st_trace s)
     <= sent msgGETVALUE (st_trace s) + delivered msgGETVALUE (st_trace s')
  /\ sent msgGETINFO (st_trace s') + delivered msgGETINFO (st_trace s)
     <= sent msgGETINFO (st_trace s) + delivered msgGETINFO (st_trace s')
  /\ sent msgGETBALANCE (st_trace s') + delivered msgGETBALANCE (st_trace s)
     <= sent msgGETBALANCE (st_trace s)
        + delivered msgGETBALANCE (st_trace s')
  /\ closes (st_trace s') + close_calls (st_trace s) + releases (st_trace s)
     <= closes (st_trace s) + close_calls (st_trace s')
        + releases (st_trace s').


(** Nobody has set the reserved flag. *)
Definition unreserved_kept (s s' : State) : Prop :=
  reserved (st_proxy s) = false -> reserved (st_proxy s') = false.

End Proxy.

End eeproxy.

Import eeproxy.

(** ** Worked scenarios: concrete collaborators *)

Module Scenario.

(** One engine kind, ["python"]. *)
Definition kinds : gmap string nat := {["python" := 0%nat]}.

(** A codec for the scenarios: a [VERSION] payload is a one-byte index into
    three sample messages, a key is its own encoding, and the other payloads
    decode to one sample message each unless they are empty. *)
Definition nonempty {T} (data : bytes) (m : T) : Fallible T :=
  match data with
  | [] => Fail "malformed"
  | _ => Ok m
  end.

Definition codec : @Codec string string string string :=
  {| unmarshal_version := fun data =>
       match data with
       | [Byte.x01] => Ok {| ver_Version := 1; ver_UID := "u"; ver_Type := "python" |}
       | [Byte.x02] => Ok {| ver_Version := 2; ver_UID := "v"; ver_Type := "python" |}
       | [Byte.x03] => Ok {| ver_Version := 1; ver_UID := "u"; ver_Type := "martian" |}
       | _ => Fail "malformed"
       end;
     unmarshal_result := fun data =>
       nonempty data {| res_Status := 0; res_StepUsed := 42; res_Result := None |};
     unmarshal_key := fun data => Ok data;
     unmarshal_set := fun data =>
       nonempty data {| sv_Key := data; sv_IsDelete := false; sv_Value := Some data |};
     unmarshal_call := fun data =>
       nonempty data {| call_To := "cx02"; call_Value := 0; call_Limit := 10;
                        call_Method := "m"; call_Params := None |};
     unmarshal_event := fun data =>
       nonempty data {| ev_Indexed := [data]; ev_Data := [] |};
     unmarshal_address := fun data => nonempty data "hx01";
     unmarshal_getAPI := fun data =>
       nonempty data {| api_Status := 0; api_Info := Some "api" |};
     EncodeAny := fun v => Ok (default "nil" v) |}.

Abbreviation world := (@World string string string string nat nat).

(** Every collaborator succeeds and the host never calls back. *)
Definition quiet : world :=
  {| conn_Send := fun _ _ _ => None;
     conn_Close := fun _ => None;
     mgr_onReady := fun _ _ _ => None;
     mgr_Kill := fun _ _ => None;
     ctx_GetValue := fun _ _ _ => Ok None;
     ctx_SetValue := fun _ _ _ _ => None;
     ctx_DeleteValue := fun _ _ _ => None;
     ctx_GetInfo := fun _ _ => None;
     ctx_GetBalance := fun _ _ _ => 0%Z;
     host_reenters := fun _ => [] |}.

(** The manager refuses every proxy. *)
Definition refusing : world :=
  {| conn_Send := conn_Send quiet;
     conn_Close := conn_Close quiet;
     mgr_onReady := fun _ _ _ => Some "not accepted";
     mgr_Kill := mgr_Kill quiet;
     ctx_GetValue := ctx_GetValue quiet;
     ctx_SetValue := ctx_SetValue quiet;
     ctx_DeleteValue := ctx_DeleteValue quiet;
     ctx_GetInfo := ctx_GetInfo quiet;
     ctx_GetBalance := ctx_GetBalance quiet;
     host_reenters := host_reenters quiet |}.

(** The transport fails every send. *)
Definition broken_pipe : world :=
  {| conn_Send := fun _ _ _ => Some "broken pipe";
     conn_Close := conn_Close quiet;
     mgr_onReady := mgr_onReady quiet;
     mgr_Kill := mgr_Kill quiet;
     ctx_GetValue := ctx_GetValue quiet;
     ctx_SetValue := ctx_SetValue quiet;
     ctx_DeleteValue := ctx_DeleteValue quiet;
     ctx_GetInfo := ctx_GetInfo quiet;
     ctx_GetBalance := ctx_GetBalance quiet;
     host_reenters := host_reenters quiet |}.

(** The host releases the proxy from inside [OnResult]. *)
Definition releasing : world :=
  {| conn_Send := conn_Send quiet;
     conn_Close := conn_Close quiet;
     mgr_onReady := mgr_onReady quiet;
     mgr_Kill := mgr_Kill quiet;
     ctx_GetValue := ctx_GetValue quiet;
     ctx_SetValue := ctx_SetValue quiet;
     ctx_DeleteValue := ctx_DeleteValue quiet;
     ctx_GetInfo := ctx_GetInfo quiet;
     ctx_GetBalance := ctx_GetBalance quiet;
     host_reenters := fun tr =>
       match tr with
       | EvOnResult _ _ _ _ :: _ => [CallRelease]
       | _ => []
       end |}.

Definition exec (w : world) (acts : list Action) :=
  run "nil" kinds codec w acts (initial 0%nat).

Definition handle (w : world) (msg : Message) (data : bytes) :=
  HandleMessage "nil" kinds codec w msg data.

(** A proxy that has just been created. *)
Definition fresh : @State string string string string nat nat :=
  initial 0%nat.

(** [invoke(ctx, "c", false, A, B, 0, 100, "m", nil)] *)
Definition invoke1 : @Action string string nat :=
  Host (CallInvoke 7%nat "c" false "hxA" "cxB" 0 100 "m" None).

(** [VERSION{1, "u", "python"}], [VERSION{2, "v", "python"}],
    [VERSION{1, "u", "martian"}] and a [RESULT]. *)
Definition version1 : @Action string string nat :=
  Deliver msgVERSION [Byte.x01].
Definition version2 : @Action string string nat :=
  Deliver msgVERSION [Byte.x02].
Definition martian : @Action string string nat :=
  Deliver msgVERSION [Byte.x03].
Definition result1 : @Action string string nat :=
  Deliver msgRESULT [Byte.x00].


(** A reserved proxy with one invocation in flight. *)
Definition busy : @State string string string string nat nat :=
  snd (exec quiet [version1; Reserve; invoke1]).

End Scenario.

(** * Properties *)

Section Properties.

Context {Address TypedObj APIInfo Encoded scoreType CallContext : Type}.
Variable codec_Nil : TypedObj.
Variable scoreNameToType : gmap string scoreType.
Variable scoreType_zero : scoreType.
Variable MP : @Codec Address TypedObj APIInfo Encoded.
Variable w : @World Address TypedObj APIInfo Encoded scoreType CallContext.

Local Abbreviation State := (@State Address TypedObj APIInfo Encoded scoreType CallContext).
Local Abbreviation Trace := (@Trace Address TypedObj APIInfo Encoded scoreType CallContext).
Local Abbreviation proxy := (@proxy Address scoreType CallContext).
Local Abbreviation Invoke := (Invoke w).
Local Abbreviation GetAPI := (GetAPI w).
Local Abbreviation Release := (Release w).
Local Abbreviation SendResult := (SendResult codec_Nil w).
Local Abbreviation Kill := (Kill w).
Local Abbreviation onReady := (onReady w).
Local Abbreviation host_call := (host_call codec_Nil w).
Local Abbreviation host_calls := (host_calls codec_Nil w).
Local Abbreviation callback := (callback codec_Nil w).
Local Abbreviation reentered := (reentered codec_Nil w).
Local Abbreviation readiness := (readiness w).
Local Abbreviation caseVERSION := (caseVERSION scoreNameToType MP w).
Local Abbreviation caseRESULT := (caseRESULT codec_Nil MP w).
Local Abbreviation caseGETAPI := (caseGETAPI codec_Nil MP w).
Local Abbreviation HandleMessage := (HandleMessage codec_Nil scoreNameToType MP w).
Local Abbreviation step := (step codec_Nil scoreNameToType MP w).
Local Abbreviation run := (run codec_Nil scoreNameToType MP w).
Local Abbreviation initial := (@initial Address TypedObj APIInfo Encoded scoreType CallContext scoreType_zero).
Local Abbreviation decode_error := (decode_error MP).

(** Unfold the monad and the methods that do not call the host back. *)
(** Split [HandleMessage] into the cases of its switch. *)
Ltac dispatch msg :=
  unfold eeproxy.HandleMessage in *;
  repeat match goal with
    | H : context [(msg =? ?m)%N] |- _ =>
        destruct (N.eqb_spec msg m); [subst msg|]
    | |- context [(msg =? ?m)%N] =>
        destruct (N.eqb_spec msg m); [subst msg|]
    end;
  unfold eeproxy.caseVERSION, eeproxy.caseRESULT, eeproxy.caseGETVALUE,
    eeproxy.caseSETVALUE, eeproxy.caseCALL, eeproxy.caseEVENT,
    eeproxy.caseGETINFO, eeproxy.caseGETBALANCE, eeproxy.caseGETAPI in *.

Ltac unfold_methods :=
  unfold eeproxy.Invoke, eeproxy.GetAPI, eeproxy.reserve, eeproxy.Release,
    eeproxy.SendResult, eeproxy.Close, eeproxy.Kill, eeproxy.onReady,
    eeproxy.connClose, eeproxy.Send, eeproxy.readiness, eeproxy.top,
    extern, assign, this, history, panic, bind, ret in *.

(** Run a method on a symbolic state, case by case. Use after
    [callback_run]. *)
Ltac exec_with lem :=
  repeat (unfold_methods; simpl in *;
          first [ rewrite lem in * | case_match ]);
  simplify_eq/=.

(** Replace the state a callback returns in by a variable that is known
    only through [lem]. *)
Ltac forget_reentered lem :=
  repeat match goal with
    | |- context [eeproxy.reentered ?c ?w0 ?e ?s0] =>
        let Hb := fresh "Hb" in
        pose proof (lem e s0) as Hb;
        generalize dependent (eeproxy.reentered c w0 e s0); intros
    end.

(** Bring [contexts] of an updated proxy back to the stack it reads. *)
Ltac norm_contexts push :=
  repeat match goal with
    | |- context [contexts (set_reserved ?b ?p)] =>
        change (contexts (set_reserved b p)) with (contexts p)
    | |- context [contexts (set_version ?b ?p)] =>
        change (contexts (set_version b p)) with (contexts p)
    | |- context [contexts (set_uid ?b ?p)] =>
        change (contexts (set_uid b p)) with (contexts p)
    | |- context [contexts (set_scoreType ?b ?p)] =>
        change (contexts (set_scoreType b p)) with (contexts p)
    | |- context [contexts (set_frame (Some _) _)] => rewrite push
    end.

(** Count the events of an explicit trace. *)
Ltac count_events :=
  unfold accounted, sent, delivered, invokes, getapis, sendresults,
    close_calls, closes, releases in *;
  simpl in *; repeat case_match; lia.

(** ** The host's calls *)

Lemma host_call_returns (c : HostCall) (s : State) :
  exists r, fst (host_call c s) = Returns r.
Proof.
  destruct c; unfold eeproxy.host_call; unfold_methods; cbn; eauto.
  destruct (reserved (st_proxy s)); cbn; eauto.
  destruct (frame (st_proxy s)); cbn; eauto.
  destruct (mgr_onReady _ _ _ _); cbn; eauto.
Qed.

Lemma host_calls_returns (cs : list HostCall) (s : State) :
  fst (host_calls cs s) = Returns tt.
Proof.
  revert s. induction cs as [|c cs IH]; intros s; [reflexivity|].
  cbn [eeproxy.host_calls]. unfold bind.
  destruct (host_call_returns c s) as [r Hr].
  destruct (host_call c s) as [o s1]. cbn in Hr. subst o. apply IH.
Qed.

Lemma host_calls_cons (c : HostCall) (cs : list HostCall) (s : State) :
  snd (host_calls (c :: cs) s) = snd (host_calls cs (snd (host_call c s))).
Proof.
  cbn [eeproxy.host_calls]. unfold bind.
  destruct (host_call_returns c s) as [r Hr].
  destruct (host_call c s) as [o s1]. cbn in Hr. subst o. reflexivity.
Qed.

(** A callback always returns, with the world's value, in the state the
    host's calls leave. *)
Lemma callback_run {A} (e : Event) (reply : Trace -> A) (s : State) :
  callback e reply s = (Returns (reply (st_trace s)), reentered e s).
Proof.
  unfold eeproxy.callback, eeproxy.reentered, bind, extern, history, ret. cbn.
  pose proof (host_calls_returns (host_reenters w (e :: st_trace s))
    {| st_proxy := st_proxy s; st_trace := e :: st_trace s |}) as H.
  destruct (host_calls _ _) as [o s1]. cbn in H. subst o. reflexivity.
Qed.

(** A relation between the state before and the state after that holds
    across every call of the host holds across a callback. *)
Lemma host_calls_rel (R : State -> State -> Prop) :
  (forall s, R s s) ->
  (forall s1 s2 s3, R s1 s2 -> R s2 s3 -> R s1 s3) ->
  (forall c s, R s (snd (host_call c s))) ->
  forall cs s, R s (snd (host_calls cs s)).
Proof.
  intros Hrefl Htrans Hcall cs.
  induction cs as [|c cs IH]; intros s; [apply Hrefl|].
  rewrite host_calls_cons. eapply Htrans; [apply Hcall | apply IH].
Qed.

(** ** Depth of the frame stack *)

Lemma depth_push (p : proxy) (a : option Address) (c : CallContext) :
  depth (set_frame (Some {| addr := a; ctx := c; prev := frame p |}) p)
  = S (depth p).
Proof. unfold depth. cbn. destruct (frame p); reflexivity. Qed.









(** A relation that holds across every step holds across a run, whether
    the run ends or panics. *)
Lemma run_rel (R : State -> State -> Prop) (P : Action -> Prop) :
  (forall s, R s s) ->
  (forall s1 s2 s3, R s1 s2 -> R s2 s3 -> R s1 s3) ->
  (forall a s, P a -> R s (snd (step a s))) ->
  forall acts s, Forall P acts -> R s (snd (run acts s)).
Proof.
  intros Hrefl Htrans Hstep acts.
  induction acts as [|a acts IH]; intros s HP; [apply Hrefl|].
  inversion HP as [|? ? Ha Hacts]; subst.
  specialize (Hstep a s Ha). specialize (IH (snd (step a s)) Hacts).
  simpl. unfold bind at 1.
  destruct (step a s) as [[r|] s1]; simpl in *; [|exact Hstep].
  unfold bind, ret.
  destruct (run acts s1) as [[rs|] s2]; simpl in *; eauto.
Qed.

(** ** The identity fields *)

Lemma host_call_same_identity (c : HostCall) (s : State) :
  same_identity s (snd (host_call c s)).
Proof.
  destruct c; unfold eeproxy.host_call, same_identity, identity;
    unfold_methods; repeat (simpl in *; case_match); simplify_eq/=;
    reflexivity.
Qed.

Lemma same_identity_trans (s1 s2 s3 : State) :
  same_identity s1 s2 -> same_identity s2 s3 -> same_identity s1 s3.
Proof. unfold same_identity. congruence. Qed.

Lemma reentered_same_identity (e : Event) (s : State) :
  same_identity {| st_proxy := st_proxy s; st_trace := e :: st_trace s |}
                (reentered e s).
Proof.
  unfold eeproxy.reentered.
  apply (host_calls_rel same_identity).
  - reflexivity.
  - apply same_identity_trans.
  - apply host_call_same_identity.
Qed.

Lemma step_same_identity (a : Action) (s : State) :
  (forall data, a <> Deliver msgVERSION data) ->
  same_identity s (snd (step a s)).
Proof.
  intros Ha. destruct a as [c| | |msg data].
  - apply host_call_same_identity.
  - unfold eeproxy.step, same_identity, identity. unfold_methods.
    repeat (simpl in *; case_match); simplify_eq/=; reflexivity.
  - reflexivity.
  - unfold eeproxy.step. dispatch msg; [destruct (Ha data); reflexivity|..];
      exec_with @callback_run;
      forget_reentered reentered_same_identity;
      unfold same_identity, identity in *; simpl in *; congruence.
Qed.

(** C3, as the code has it. The fields [version], [uid] and [scoreType]
    are written by the [msgVERSION] case and by nothing else: no host call,
    manager call or other inbound message changes them, whatever it returns.
    Every [VERSION] message that decodes writes [version] and [uid] again,
    and [scoreType] too when its type is known; one that does not decode
    changes nothing. *)
Theorem identity_written_by_VERSION_only :
  (forall (acts : list Action) (s : State),
      Forall (fun a => forall data, a <> Deliver msgVERSION data) acts ->
      identity (st_proxy (snd (run acts s))) = identity (st_proxy s))
  /\ (forall (data : bytes) (s : State) (m : versionMessage),
      unmarshal_version MP data = Ok m ->
      identity (st_proxy (snd (HandleMessage msgVERSION data s)))
      = (ver_Version m, ver_UID m,
         default (p_scoreType (st_proxy s)) (scoreNameToType !! ver_Type m)))
  /\ (forall (data : bytes) (s : State) (err : string),
      unmarshal_version MP data = Fail err ->
      HandleMessage msgVERSION data s = (Returns (Some err), s)).
Proof.
  split; [|split].
  - intros acts s Hacts.
    apply (run_rel same_identity
             (fun a => forall data, a <> Deliver msgVERSION data)); auto.
    + reflexivity.
    + apply same_identity_trans.
    + intros a s0 Ha. apply step_same_identity, Ha.
  - intros data s m Hm. unfold eeproxy.HandleMessage. simpl.
    unfold eeproxy.caseVERSION. rewrite Hm. unfold_methods. simpl.
    destruct (scoreNameToType !! ver_Type m); reflexivity.
  - intros data s err Hm. unfold eeproxy.HandleMessage. simpl.
    unfold eeproxy.caseVERSION. rewrite Hm. reflexivity.
Qed.

(** ** The reserved flag *)

Lemma reserved_kept_refl (s : State) : reserved_kept s s.
Proof. unfold reserved_kept. auto. Qed.

Lemma reserved_kept_trans (s1 s2 s3 : State) :
  reserved_kept s1 s2 -> reserved_kept s2 s3 -> reserved_kept s1 s3.
Proof.
  unfold reserved_kept. intros [Hle1 H1] [Hle2 H2]. split; [lia|].
  intros Heq Hres. apply H2; [lia|]. apply H1; [lia|exact Hres].
Qed.

Lemma host_call_reserved_kept (c : HostCall) (s : State) :
  reserved_kept s (snd (host_call c s)).
Proof.
  destruct c; unfold eeproxy.host_call, reserved_kept, releases;
    unfold_methods; repeat (simpl in *; case_match); simplify_eq/=;
    split; auto; lia.
Qed.

Lemma reentered_reserved_kept (e : Event) (s : State) :
  reserved_kept {| st_proxy := st_proxy s; st_trace := e :: st_trace s |}
                (reentered e s).
Proof.
  unfold eeproxy.reentered.
  apply (host_calls_rel reserved_kept).
  - apply reserved_kept_refl.
  - apply reserved_kept_trans.
  - apply host_call_reserved_kept.
Qed.

Lemma step_reserved_kept (a : Action) (s : State) :
  reserved_kept s (snd (step a s)).
Proof.
  destruct a as [c| | |msg data].
  - apply host_call_reserved_kept.
  - unfold eeproxy.step, reserved_kept, releases. unfold_methods.
    repeat (simpl in *; case_match); simplify_eq/=; auto.
  - unfold eeproxy.step, reserved_kept, releases. unfold_methods. simpl. auto.
  - unfold eeproxy.step. dispatch msg;
      exec_with @callback_run;
      forget_reentered reentered_reserved_kept;
      unfold reserved_kept, releases in *; simpl in *;
      try (split; [lia|tauto]); auto.
Qed.

(** C5, as the code has it. [reserve] is a test-and-set of the reserved
    flag: it returns true and sets the flag when the flag is clear, and
    returns false and changes nothing when the flag is set. Once the flag is
    set, [reserve] keeps returning false after any run of calls and inbound
    messages, terminal ones too, in which [Release] is not entered (neither
    directly nor from inside a callback); [Release] clears the flag. *)
Theorem reserve_fails_until_release :
  (forall s : State,
      reserved (st_proxy s) = false ->
      reserve s = (Returns true,
                   {| st_proxy := set_reserved true (st_proxy s);
                      st_trace := st_trace s |}))
  /\ (forall s : State,
      reserved (st_proxy s) = true -> reserve s = (Returns false, s))
  /\ (forall (acts : list Action) (s : State),
      reserved (st_proxy s) = true ->
      releases (st_trace (snd (run acts s))) = releases (st_trace s) ->
      reserve (snd (run acts s)) = (Returns false, snd (run acts s)))
  /\ (forall s : State, reserved (st_proxy (snd (Release s))) = false).
Proof.
  assert (Hset : forall s : State,
             reserved (st_proxy s) = true -> reserve s = (Returns false, s)).
  { intros s Hs. unfold reserve. unfold_methods. rewrite Hs. reflexivity. }
  split; [|split; [exact Hset|split]].
  - intros s Hs. unfold reserve. unfold_methods. rewrite Hs. reflexivity.
  - intros acts s Hs Hrel. apply Hset.
    assert (Hk : reserved_kept s (snd (run acts s))).
    { apply (run_rel reserved_kept (fun _ => True)).
      - apply reserved_kept_refl.
      - apply reserved_kept_trans.
      - intros a s0 _. apply step_reserved_kept.
      - apply Forall_forall. auto. }
    destruct Hk as [_ Hk]. auto.
  - intros s. unfold eeproxy.Release. unfold_methods.
    repeat (simpl in *; case_match); simplify_eq/=; auto.
    destruct (reserved (st_proxy s)); [discriminate|reflexivity].
Qed.

(** ** The call sites of [onReady], run on a symbolic state *)

Lemma Release_run (s : State) :
  let p := set_reserved false (st_proxy s) in
  let ready := EvOnReady (p_scoreType p) p in
  Release s
  = (Returns tt,
     if reserved (st_proxy s) then
       if is_nil (frame (st_proxy s)) then
         match mgr_onReady w (st_trace s) (p_scoreType p) p with
         | Some _ =>
             {| st_proxy := p; st_trace := EvClose :: ready :: st_trace s |}
         | None => {| st_proxy := p; st_trace := ready :: st_trace s |}
         end
       else {| st_proxy := p; st_trace := st_trace s |}
     else s).
Proof.
  destruct s as [[r v u t f] tr]. unfold eeproxy.Release. unfold_methods.
  simpl. destruct r, f as [f|]; simpl; try reflexivity.
  unfold set_reserved. simpl. destruct (mgr_onReady _ _ _ _); reflexivity.
Qed.

Lemma VERSION_run (data : bytes) (s : State) (m : versionMessage)
    (t : scoreType) :
  unmarshal_version MP data = Ok m ->
  scoreNameToType !! ver_Type m = Some t ->
  let p := set_scoreType t
             (set_uid (ver_UID m)
                (set_version (ver_Version m) (st_proxy s))) in
  HandleMessage msgVERSION data s
  = (Returns (mgr_onReady w (st_trace s) t p),
     {| st_proxy := p; st_trace := EvOnReady t p :: st_trace s |}).
Proof.
  intros Hm Ht p. unfold eeproxy.HandleMessage. simpl.
  unfold eeproxy.caseVERSION. rewrite Hm. unfold_methods. simpl.
  rewrite Ht. reflexivity.
Qed.

Lemma readiness_run (s : State) :
  let p := st_proxy s in
  readiness s
  = if idle p
    then (Returns (mgr_onReady w (st_trace s) (p_scoreType p) p),
          {| st_proxy := p;
             st_trace := EvOnReady (p_scoreType p) p :: st_trace s |})
    else (Returns None, s).
Proof.
  unfold eeproxy.readiness, idle. unfold_methods. simpl.
  destruct (is_nil _ && negb _); destruct s; reflexivity.
Qed.

Lemma RESULT_run (data : bytes) (s : State) (m : resultMessage)
    (f : callFrame) :
  unmarshal_result MP data = Ok m ->
  frame (st_proxy s) = Some f ->
  HandleMessage msgRESULT data s
  = readiness
      (reentered
         (EvOnResult (ctx f) (res_Status m) (res_StepUsed m) (res_Result m))
         {| st_proxy := set_frame (prev f) (st_proxy s);
            st_trace := st_trace s |}).
Proof.
  intros Hm Hf. unfold eeproxy.HandleMessage. simpl.
  unfold eeproxy.caseRESULT. rewrite Hm.
  unfold eeproxy.top, bind, this, assign. rewrite Hf. unfold ret. simpl.
  rewrite callback_run. reflexivity.
Qed.

Lemma GETAPI_run (data : bytes) (s : State) (m : getAPIMessage)
    (f : callFrame) :
  unmarshal_getAPI MP data = Ok m ->
  frame (st_proxy s) = Some f ->
  HandleMessage msgGETAPI data s
  = readiness
      (reentered
         (EvOnAPI (ctx f) (api_Status m) (api_Info m))
         {| st_proxy := set_frame (prev f) (st_proxy s);
            st_trace := st_trace s |}).
Proof.
  intros Hm Hf. unfold eeproxy.HandleMessage. simpl.
  unfold eeproxy.caseGETAPI. rewrite Hm.
  unfold eeproxy.top, bind, this, assign. rewrite Hf. unfold ret. simpl.
  rewrite callback_run. reflexivity.
Qed.

(** ** The calls of [onReady] *)













(** ** The methods one by one *)

(** C10. When the transport fails the send of [Invoke] or of [GetAPI], the
    call returns that error and the frame it pushed stays on the stack:
    the proxy differs from the one before the call by that one frame. *)
Theorem failed_send_keeps_frame (s : State) (c : CallContext)
    (code : string) (isQuery : bool) (from to : Address) (value limit : Z)
    (method : string) (params : option TypedObj) :
  let m := {| inv_Code := code; inv_IsQry := isQuery; inv_From := from;
              inv_To := to; inv_Value := value; inv_Limit := limit;
              inv_Method := method; inv_Params := params |} in
  let pushed a :=
    set_frame (Some {| addr := a; ctx := c; prev := frame (st_proxy s) |})
              (st_proxy s) in
  (forall err,
      conn_Send w (st_trace s) msgINVOKE (PInvoke m) = Some err ->
      Invoke c code isQuery from to value limit method params s
      = (Returns (Some err),
         {| st_proxy := pushed (Some to);
            st_trace := EvSend msgINVOKE (PInvoke m) :: st_trace s |})
      /\ depth (pushed (Some to)) = S (depth (st_proxy s)))
  /\ (forall err,
      conn_Send w (st_trace s) msgGETAPI (PCode code) = Some err ->
      GetAPI c code s
      = (Returns (Some err),
         {| st_proxy := pushed None;
            st_trace := EvSend msgGETAPI (PCode code) :: st_trace s |})
      /\ depth (pushed None) = S (depth (st_proxy s))).
Proof.
  intros m pushed. split; intros err Hsend.
  - split; [|apply depth_push].
    unfold eeproxy.Invoke. unfold_methods. simpl. fold m.
    rewrite Hsend. reflexivity.
  - split; [|apply depth_push].
    unfold eeproxy.GetAPI. unfold_methods. simpl.
    rewrite Hsend. reflexivity.
Qed.

(** C8. [SendResult] called without a result value hands the transport a
    [RESULT] message whose result field is [codec.Nil], not nil, and
    whose status and steps are the ones it was given. *)
Theorem nil_result_is_sentinel (s : State) (c : CallContext)
    (status steps : Z) :
  let m := {| res_Status := status; res_StepUsed := steps;
              res_Result := Some codec_Nil |} in
  SendResult c status steps None s
  = (Returns (conn_Send w (st_trace s) msgRESULT (PResult m)),
     {| st_proxy := st_proxy s;
        st_trace := EvSend msgRESULT (PResult m) :: st_trace s |}).
Proof. reflexivity. Qed.

(** C7. A [VERSION] message whose type is not in [scoreNameToType] makes
    the dispatch fail with the error [UnknownSCOREName(type)], and [onReady]
    is not called: the trace is left as it was. *)
Theorem unknown_kind_rejected (s : State) (data : bytes)
    (m : versionMessage) :
  unmarshal_version MP data = Ok m ->
  scoreNameToType !! ver_Type m = None ->
  HandleMessage msgVERSION data s
  = (Returns (Some ("UnknownSCOREName(" +:+ ver_Type m +:+ ")")),
     {| st_proxy := set_uid (ver_UID m) (set_version (ver_Version m) (st_proxy s));
        st_trace := st_trace s |}).
Proof.
  intros Hm Hkind. unfold eeproxy.HandleMessage. simpl.
  unfold eeproxy.caseVERSION. rewrite Hm. unfold_methods. simpl.
  rewrite Hkind. reflexivity.
Qed.

(** C6, as the code has it. [Release] leaves the reserved flag false and
    touches nothing else of the proxy. It calls [onReady] when the proxy
    was reserved and the stack is empty, once, passing the proxy with the
    flag already cleared; when the proxy was not reserved, or a frame is
    left, it calls nothing. *)
Theorem release_notifies_when_reserved_and_empty (s : State) :
  let p0 := set_reserved false (st_proxy s) in
  let ready := EvOnReady (p_scoreType p0) p0 in
  fst (Release s) = Returns tt
  /\ reserved (st_proxy (snd (Release s))) = false
  /\ frame (st_proxy (snd (Release s))) = frame (st_proxy s)
  /\ identity (st_proxy (snd (Release s))) = identity (st_proxy s)
  /\ (reserved (st_proxy s) = true -> frame (st_proxy s) = None ->
      st_trace (snd (Release s)) = ready :: st_trace s
      \/ st_trace (snd (Release s)) = EvClose :: ready :: st_trace s)
  /\ (reserved (st_proxy s) = false \/ frame (st_proxy s) <> None ->
      snd (Release s)
      = {| st_proxy := p0; st_trace := st_trace s |}).
Proof.
  intros p0 ready. subst p0 ready. destruct s as [[r v u t f] tr].
  unfold eeproxy.Release. unfold_methods. unfold identity, set_reserved.
  simpl. destruct r, f as [f|]; simpl;
    try destruct (mgr_onReady _ _ _ _); simpl; intuition congruence.
Qed.

(** C4, as the code has it. A message that is answered from the frame
    stack (the six intermediate ones, [RESULT] and the [GETAPI] response)
    that arrives while the stack is empty calls no host callback and changes
    nothing: when its payload does not decode the dispatch returns the
    decoding error, and otherwise it panics on the nil frame. No error of
    its own is reported for the empty stack. *)
Theorem empty_stack_dispatch (msg : Message) (data : bytes) (s : State) :
  uses_frame msg = true ->
  frame (st_proxy s) = None ->
  HandleMessage msg data s
  = (match decode_error msg data with
     | Some err => Returns (Some err)
     | None => Panics
     end, s).
Proof.
  intros Hmsg Hf. unfold eeproxy.decode_error.
  dispatch msg; try discriminate Hmsg;
    try (unfold uses_frame in Hmsg;
         repeat match goal with
           | Hne : msg <> _ |- _ => apply N.eqb_neq in Hne; rewrite Hne in Hmsg
           end; discriminate Hmsg);
    unfold_methods; simpl; repeat case_match; simpl; try rewrite Hf;
    simplify_eq/=; reflexivity.
Qed.

(** C9, as the code has it. When [onReady] returns an error, [Release]
    closes the transport at once: [Close] is its next call. The dispatch
    sites (the end of the [msgVERSION], [msgRESULT] and [msgGETAPI] cases)
    return that error from [HandleMessage] and make no further call: the
    proxy does not itself close the transport there. *)
Theorem ready_error_handling (err : string) :
  (forall s : State,
      let p := set_reserved false (st_proxy s) in
      reserved (st_proxy s) = true ->
      frame (st_proxy s) = None ->
      mgr_onReady w (st_trace s) (p_scoreType p) p = Some err ->
      Release s
      = (Returns tt,
         {| st_proxy := p;
            st_trace := EvClose :: EvOnReady (p_scoreType p) p :: st_trace s |}))
  /\ (forall (data : bytes) (s : State) (m : versionMessage) (t : scoreType),
      let p := set_scoreType t
                 (set_uid (ver_UID m)
                    (set_version (ver_Version m) (st_proxy s))) in
      unmarshal_version MP data = Ok m ->
      scoreNameToType !! ver_Type m = Some t ->
      mgr_onReady w (st_trace s) t p = Some err ->
      HandleMessage msgVERSION data s
      = (Returns (Some err),
         {| st_proxy := p; st_trace := EvOnReady t p :: st_trace s |}))
  /\ (forall (data : bytes) (s : State) (m : resultMessage) (f : callFrame),
      let s1 := reentered
                  (EvOnResult (ctx f) (res_Status m) (res_StepUsed m)
                              (res_Result m))
                  {| st_proxy := set_frame (prev f) (st_proxy s);
                     st_trace := st_trace s |} in
      let p := st_proxy s1 in
      unmarshal_result MP data = Ok m ->
      frame (st_proxy s) = Some f ->
      idle p = true ->
      mgr_onReady w (st_trace s1) (p_scoreType p) p = Some err ->
      HandleMessage msgRESULT data s
      = (Returns (Some err),
         {| st_proxy := p;
            st_trace := EvOnReady (p_scoreType p) p :: st_trace s1 |}))
  /\ (forall (data : bytes) (s : State) (m : getAPIMessage) (f : callFrame),
      let s1 := reentered
                  (EvOnAPI (ctx f) (api_Status m) (api_Info m))
                  {| st_proxy := set_frame (prev f) (st_proxy s);
                     st_trace := st_trace s |} in
      let p := st_proxy s1 in
      unmarshal_getAPI MP data = Ok m ->
      frame (st_proxy s) = Some f ->
      idle p = true ->
      mgr_onReady w (st_trace s1) (p_scoreType p) p = Some err ->
      HandleMessage msgGETAPI data s
      = (Returns (Some err),
         {| st_proxy := p;
            st_trace := EvOnReady (p_scoreType p) p :: st_trace s1 |})).
Proof.
  split; [|split; [|split]].
  - intros s p Hr Hf Herr. subst p. rewrite Release_run. cbv zeta.
    rewrite Hr, Hf, Herr. reflexivity.
  - intros data s m t p Hm Ht Herr. subst p.
    rewrite (VERSION_run data s m t Hm Ht). rewrite Herr. reflexivity.
  - intros data s m f s1 p Hm Hf Hidle Herr. subst p s1.
    rewrite (RESULT_run data s m f Hm Hf), readiness_run. simpl.
    rewrite Hidle, Herr. reflexivity.
  - intros data s m f s1 p Hm Hf Hidle Herr. subst p s1.
    rewrite (GETAPI_run data s m f Hm Hf), readiness_run. simpl.
    rewrite Hidle, Herr. reflexivity.
Qed.

(** * Further properties *)

#[local] Arguments contexts : simpl never.

(** ** Who receives the terminal callbacks *)

Lemma contexts_push (p : proxy) (a : option Address) (c : CallContext) :
  contexts (set_frame (Some {| addr := a; ctx := c; prev := frame p |}) p)
  = c :: contexts p.
Proof. unfold contexts. simpl. destruct (frame p); reflexivity. Qed.

Lemma contexts_pop (p : proxy) (f : callFrame) :
  frame p = Some f -> contexts p = ctx f :: contexts (set_frame (prev f) p).
Proof.
  intros H. unfold contexts. rewrite H. simpl.
  destruct f as [a c [g|]]; reflexivity.
Qed.

Lemma stack_kept_trans (s1 s2 s3 : State) :
  stack_kept s1 s2 -> stack_kept s2 s3 -> stack_kept s1 s3.
Proof. unfold stack_kept. auto. Qed.

Lemma host_call_stack_kept (c : HostCall) (s : State) :
  stack_kept s (snd (host_call c s)).
Proof.
  destruct c; unfold eeproxy.host_call, stack_kept; unfold_methods;
    repeat (simpl in *; case_match); simplify_eq/=; norm_contexts contexts_push; eauto.
Qed.

Lemma reentered_stack_kept (e : Event) (s : State) :
  stack_kept {| st_proxy := st_proxy s; st_trace := e :: st_trace s |}
             (reentered e s).
Proof.
  unfold eeproxy.reentered.
  apply (host_calls_rel stack_kept).
  - unfold stack_kept. auto.
  - apply stack_kept_trans.
  - apply host_call_stack_kept.
Qed.

Lemma step_stack_kept (a : Action) (s : State) :
  stack_kept s (snd (step a s)).
Proof.
  destruct a as [c| | |msg data].
  - apply host_call_stack_kept.
  - unfold eeproxy.step, stack_kept. unfold_methods.
    repeat (simpl in *; case_match); simplify_eq/=; norm_contexts contexts_push; auto.
  - unfold eeproxy.step, stack_kept. unfold_methods. simpl. auto.
  - unfold eeproxy.step. dispatch msg;
      exec_with @callback_run;
      forget_reentered reentered_stack_kept;
      unfold stack_kept in *; simpl in *; norm_contexts contexts_push; auto;
      intros Htr;
      match goal with
      | Hf : frame _ = Some _ |- _ => rewrite (contexts_pop _ _ Hf) in Htr
      end; auto.
Qed.

(** X1. In every run from a fresh proxy, whatever the collaborators return
    and whether the run ends or panics, the trace accounts for the frame
    stack: each terminal callback went to the context of the innermost
    invocation in flight at that moment and removed it, and the contexts
    left on the stack are those of the invocations still unanswered,
    innermost first. *)
Theorem terminal_callbacks_follow_the_stack (acts : list Action) :
  in_flight (st_trace (snd (run acts initial)))
            (contexts (st_proxy (snd (run acts initial)))).
Proof.
  apply (run_rel stack_kept (fun _ => True)).
  - unfold stack_kept. auto.
  - apply stack_kept_trans.
  - intros a s _. apply step_stack_kept.
  - apply Forall_forall. auto.
  - reflexivity.
Qed.

(** ** What is handed to the transport *)

Lemma sends_kept_trans (s1 s2 s3 : State) :
  sends_kept s1 s2 -> sends_kept s2 s3 -> sends_kept s1 s3.
Proof. unfold sends_kept. auto. Qed.

Lemma host_call_sends_kept (c : HostCall) (s : State) :
  sends_kept s (snd (host_call c s)).
Proof.
  destruct c; unfold eeproxy.host_call, sends_kept; unfold_methods;
    repeat (simpl in *; case_match); simplify_eq/=; auto.
Qed.

Lemma reentered_sends_kept (e : Event) (s : State) :
  sends_kept {| st_proxy := st_proxy s; st_trace := e :: st_trace s |}
             (reentered e s).
Proof.
  unfold eeproxy.reentered.
  apply (host_calls_rel sends_kept).
  - unfold sends_kept. auto.
  - apply sends_kept_trans.
  - apply host_call_sends_kept.
Qed.

Lemma step_sends_kept (a : Action) (s : State) :
  sends_kept s (snd (step a s)).
Proof.
  destruct a as [c| | |msg data].
  - apply host_call_sends_kept.
  - unfold eeproxy.step, sends_kept. unfold_methods.
    repeat (simpl in *; case_match); simplify_eq/=; auto.
  - unfold eeproxy.step, sends_kept. unfold_methods. simpl. auto.
  - unfold eeproxy.step. dispatch msg;
      exec_with @callback_run;
      forget_reentered reentered_sends_kept;
      unfold sends_kept in *; simpl in *; auto.
Qed.

(** X2. In every run from a fresh proxy, every message the proxy hands to
    the transport carries the payload of its tag: an invocation on
    [msgINVOKE], a code id on [msgGETAPI], a result on [msgRESULT], and the
    three replies on [msgGETVALUE], [msgGETINFO] and [msgGETBALANCE]; so
    nothing is ever sent on [msgVERSION], [msgSETVALUE], [msgCALL] or
    [msgEVENT]. The result field of a [RESULT] is never nil, and a
    [GETVALUE] reply reports success exactly when it carries a value. *)
Theorem sends_are_well_formed (acts : list Action) (e : Event) :
  In e (st_trace (snd (run acts initial))) -> sent_ok e = true.
Proof.
  revert e. apply forallb_forall.
  apply (run_rel sends_kept (fun _ => True)).
  - unfold sends_kept. auto.
  - apply sends_kept_trans.
  - intros a s _. apply step_sends_kept.
  - apply Forall_forall. auto.
  - reflexivity.
Qed.

Lemma accounted_refl (s : State) : accounted s s.
Proof. unfold accounted. lia. Qed.

Lemma accounted_trans (s1 s2 s3 : State) :
  accounted s1 s2 -> accounted s2 s3 -> accounted s1 s3.
Proof. unfold accounted. lia. Qed.

Lemma host_call_accounted (c : HostCall) (s : State) :
  accounted s (snd (host_call c s)).
Proof.
  destruct c; unfold eeproxy.host_call; unfold_methods;
    repeat (simpl in *; case_match); simplify_eq/=; count_events.
Qed.

Lemma reentered_accounted (e : Event) (s : State) :
  accounted {| st_proxy := st_proxy s; st_trace := e :: st_trace s |}
            (reentered e s).
Proof.
  unfold eeproxy.reentered.
  apply (host_calls_rel accounted).
  - apply accounted_refl.
  - apply accounted_trans.
  - apply host_call_accounted.
Qed.

Lemma step_accounted (a : Action) (s : State) :
  accounted s (snd (step a s)).
Proof.
  destruct a as [c| | |msg data].
  - apply host_call_accounted.
  - unfold eeproxy.step. unfold_methods.
    repeat (simpl in *; case_match); simplify_eq/=; count_events.
  - unfold eeproxy.step. unfold_methods. count_events.
  - unfold eeproxy.step. dispatch msg;
      exec_with @callback_run;
      forget_reentered reentered_accounted;
      count_events.
Qed.

Lemma run_accounted (acts : list Action) (s : State) :
  accounted s (snd (run acts s)).
Proof.
  apply (run_rel accounted (fun _ => True)).
  - apply accounted_refl.
  - apply accounted_trans.
  - intros a s0 _. apply step_accounted.
  - apply Forall_forall. auto.
Qed.

(** X3. In every run from a fresh proxy, the proxy has handed the transport
    exactly one [INVOKE] for every [Invoke] the host entered, one [GETAPI]
    for every [GetAPI] and one [RESULT] for every [SendResult], also for
    those entered from inside a callback; and it has sent no more
    [GETVALUE], [GETINFO] and [GETBALANCE] replies than the transport
    delivered requests on that tag. Dispatch sends no request of its own. *)
Theorem requests_and_replies_accounted (acts : list Action) :
  let tr := st_trace (snd (run acts initial)) in
  sent msgINVOKE tr = invokes tr
  /\ sent msgGETAPI tr = getapis tr
  /\ sent msgRESULT tr = sendresults tr
  /\ sent msgGETVALUE tr <= delivered msgGETVALUE tr
  /\ sent msgGETINFO tr <= delivered msgGETINFO tr
  /\ sent msgGETBALANCE tr <= delivered msgGETBALANCE tr.
Proof.
  intros tr. subst tr. pose proof (run_accounted acts initial) as H.
  unfold accounted in H. cbn in H. lia.
Qed.

(** X4. In every run from a fresh proxy the proxy has called [conn.Close]
    at most once for every [Close] and every [Release] that was entered:
    dispatch alone never closes the transport, whatever error it returns. *)
Theorem transport_closed_only_on_request (acts : list Action) :
  let tr := st_trace (snd (run acts initial)) in
  closes tr <= close_calls tr + releases tr.
Proof.
  intros tr. subst tr. pose proof (run_accounted acts initial) as H.
  unfold accounted in H. cbn in H. lia.
Qed.

(** ** Who sets the reserved flag *)

Lemma host_call_unreserved_kept (c : HostCall) (s : State) :
  unreserved_kept s (snd (host_call c s)).
Proof.
  destruct c; unfold eeproxy.host_call, unreserved_kept; unfold_methods;
    repeat (simpl in *; case_match); simplify_eq/=; auto.
Qed.

Lemma reentered_unreserved_kept (e : Event) (s : State) :
  unreserved_kept {| st_proxy := st_proxy s; st_trace := e :: st_trace s |}
                  (reentered e s).
Proof.
  unfold eeproxy.reentered.
  apply (host_calls_rel unreserved_kept).
  - unfold unreserved_kept. auto.
  - unfold unreserved_kept. auto.
  - apply host_call_unreserved_kept.
Qed.

Lemma step_unreserved_kept (a : Action) (s : State) :
  a <> Reserve -> unreserved_kept s (snd (step a s)).
Proof.
  intros Ha. destruct a as [c| | |msg data].
  - apply host_call_unreserved_kept.
  - contradiction.
  - unfold eeproxy.step, unreserved_kept. unfold_methods. simpl. auto.
  - unfold eeproxy.step. dispatch msg;
      exec_with @callback_run;
      forget_reentered reentered_unreserved_kept;
      unfold unreserved_kept in *; simpl in *; auto.
Qed.

(** X5. Only [reserve] sets the reserved flag: a proxy that is not reserved
    stays so across any run in which the manager does not enter [reserve],
    whatever the host calls (also [Invoke] and [GetAPI], which do not test
    the flag) and whatever the engine sends. *)
Theorem only_reserve_reserves (acts : list Action) (s : State) :
  Forall (fun a => a <> Reserve) acts ->
  reserved (st_proxy s) = false ->
  reserved (st_proxy (snd (run acts s))) = false.
Proof.
  intros Hacts.
  apply (run_rel unreserved_kept (fun a => a <> Reserve)); auto.
  - unfold unreserved_kept. auto.
  - unfold unreserved_kept. auto.
  - intros a s0 Ha. apply step_unreserved_kept, Ha.
Qed.

(** ** Errors of the dispatch *)

(** X7. A message that is answered from the frame stack and whose payload
    does not decode makes the dispatch return the decoding error and changes
    nothing, whether the stack is empty or not: no frame is popped and no
    callback is made. *)
Theorem undecodable_message_changes_nothing (msg : Message) (data : bytes)
    (s : State) (err : string) :
  decode_error msg data = Some err ->
  HandleMessage msg data s = (Returns (Some err), s).
Proof.
  intros H. unfold eeproxy.decode_error in H.
  dispatch msg; simpl in H; try discriminate H;
    repeat case_match; simplify_eq/=; reflexivity.
Qed.

(** X8. A tag that no case handles, which is [msgINVOKE] or any tag above
    [msgGETAPI], makes the dispatch return [UnknownMessage(tag)] and changes
    nothing. *)
Theorem unhandled_tag_is_rejected (msg : Message) (data : bytes)
    (s : State) :
  msg = msgINVOKE \/ (msgGETAPI < msg)%N ->
  HandleMessage msg data s
  = (Returns (Some ("UnknownMessage(" +:+ pretty msg +:+ ")")), s).
Proof.
  intros H. unfold eeproxy.HandleMessage.
  repeat match goal with
    | |- context [(msg =? ?m)%N] =>
        destruct (N.eqb_spec msg m) as [Heq|_];
        [exfalso; revert H Heq;
         unfold msgVERSION, msgINVOKE, msgRESULT, msgGETVALUE, msgSETVALUE,
           msgCALL, msgEVENT, msgGETINFO, msgGETBALANCE, msgGETAPI;
         lia|]
    end.
  reflexivity.
Qed.

(** ** How the methods compose *)

(** X9. A second [Release] does nothing: after [Release] the flag is clear,
    so [Release] again returns at once, calls nobody and leaves the state as
    it is. *)
Theorem release_twice_is_release_once (s : State) :
  Release (snd (Release s)) = (Returns tt, snd (Release s)).
Proof.
  destruct s as [[r v u t f] tr]. unfold eeproxy.Release. unfold_methods.
  simpl. destruct r, f as [f|]; simpl; try reflexivity.
  destruct (mgr_onReady _ _ _ _); reflexivity.
Qed.

(** X10. [reserve] on a proxy that is not reserved followed by [Release]
    gives the proxy record back as it was, and the manager is told once
    that the proxy is ready exactly when no frame is on the stack. *)
Theorem reserve_then_release (s : State) :
  reserved (st_proxy s) = false ->
  fst (reserve s) = Returns true
  /\ st_proxy (snd (Release (snd (reserve s)))) = st_proxy s
  /\ readies (st_trace (snd (Release (snd (reserve s)))))
     = (if is_nil (frame (st_proxy s)) then 1 else 0)
       + readies (st_trace s).
Proof.
  destruct s as [[r v u t f] tr]. simpl. intros ->.
  unfold eeproxy.reserve, eeproxy.Release, readies. unfold_methods. simpl.
  destruct f as [f|]; simpl; [auto|].
  destruct (mgr_onReady _ _ _ _); simpl; auto.
Qed.

Lemma reentered_quiet (e : Event) (s : State) :
  (forall tr, host_reenters w tr = []) ->
  reentered e s = {| st_proxy := st_proxy s; st_trace := e :: st_trace s |}.
Proof. intros H. unfold eeproxy.reentered. rewrite H. reflexivity. Qed.

(** X11. The engine's sub-calls and events are attributed to the contract
    of the innermost invocation: right after [Invoke] for the contract [to]
    on the context [c], a [CALL] reaches [c.OnCall] with [from = to] and an
    [EVENT] reaches [c.OnEvent] with that address; right after [GetAPI] the
    address passed is nil. The dispatch returns nil and sends no reply. *)
Theorem subcall_caller_is_invoked_contract (s : State) (c : CallContext)
    (code : string) (isQuery : bool) (from to : Address) (value limit : Z)
    (method : string) (params : option TypedObj) (data : bytes) :
  let s1 := snd (Invoke c code isQuery from to value limit method params s) in
  let s2 := snd (GetAPI c code s) in
  (forall m : callMessage,
      unmarshal_call MP data = Ok m ->
      HandleMessage msgCALL data s1
      = (Returns None,
         reentered (EvOnCall c (Some to) (call_To m) (call_Value m)
                             (call_Limit m) (call_Method m) (call_Params m))
                   s1)
      /\ HandleMessage msgCALL data s2
         = (Returns None,
            reentered (EvOnCall c None (call_To m) (call_Value m)
                                (call_Limit m) (call_Method m)
                                (call_Params m))
                      s2))
  /\ (forall m : eventMessage,
      unmarshal_event MP data = Ok m ->
      HandleMessage msgEVENT data s1
      = (Returns None,
         reentered (EvOnEvent c (Some to) (ev_Indexed m) (ev_Data m)) s1)
      /\ HandleMessage msgEVENT data s2
         = (Returns None,
            reentered (EvOnEvent c None (ev_Indexed m) (ev_Data m)) s2)).
Proof.
  intros s1 s2. subst s1 s2.
  split; intros m Hm; split;
    unfold eeproxy.HandleMessage, eeproxy.caseCALL, eeproxy.caseEVENT;
    simpl; rewrite Hm;
    unfold eeproxy.Invoke, eeproxy.GetAPI; unfold_methods; simpl;
    rewrite callback_run; reflexivity.
Qed.

(** X12. [Kill] asks the manager to kill the uid of the last [VERSION]
    message that decoded, also when that message was rejected for its
    unknown type or when [onReady] failed on it; it returns the manager's
    answer and leaves the proxy as it is. *)
Theorem kill_names_the_announced_uid (s : State) (data : bytes)
    (m : versionMessage) :
  unmarshal_version MP data = Ok m ->
  let s1 := snd (HandleMessage msgVERSION data s) in
  Kill s1
  = (Returns (mgr_Kill w (st_trace s1) (ver_UID m)),
     {| st_proxy := st_proxy s1;
        st_trace := EvKill (ver_UID m) :: st_trace s1 |}).
Proof.
  intros Hm s1. subst s1. unfold eeproxy.HandleMessage. simpl.
  unfold eeproxy.caseVERSION. rewrite Hm. unfold_methods. simpl.
  destruct (scoreNameToType !! ver_Type m); reflexivity.
Qed.

(** X13. While the host does not call back into the proxy, an intermediate
    message leaves the proxy record as it is and announces nothing to the
    manager, whatever the dispatch returns. *)
Theorem intermediate_message_keeps_proxy (msg : Message) (data : bytes)
    (s : State) :
  (forall tr, host_reenters w tr = []) ->
  intermediate msg = true ->
  st_proxy (snd (HandleMessage msg data s)) = st_proxy s
  /\ readies (st_trace (snd (HandleMessage msg data s)))
     = readies (st_trace s).
Proof.
  intros Hq Hmsg. unfold readies.
  dispatch msg; try discriminate Hmsg;
    try (unfold intermediate in Hmsg;
         repeat match goal with
           | Hne : msg <> _ |- _ =>
               apply N.eqb_neq in Hne; rewrite Hne in Hmsg
           end; discriminate Hmsg);
    exec_with @callback_run; rewrite ?reentered_quiet by exact Hq;
    simpl; auto.
Qed.

(** X14. While the host does not call back into the proxy, an invocation
    and its answer are a round trip: [Invoke] followed by a [RESULT] that
    decodes calls [OnResult] of the invoking context with the status, steps
    and result of the message and gives the proxy record back as it was
    before [Invoke]; the manager is then told that the proxy is ready
    exactly when that proxy is idle. The same holds for [GetAPI] followed by
    the [GETAPI] response, with [OnAPI]. *)
Theorem invocation_round_trip (s : State) (c : CallContext) (code : string)
    (isQuery : bool) (from to : Address) (value limit : Z) (method : string)
    (params : option TypedObj) (data : bytes) :
  (forall tr, host_reenters w tr = []) ->
  let p := st_proxy s in
  let announce (tr : Trace) :=
    if idle p then EvOnReady (p_scoreType p) p :: tr else tr in
  (forall m : resultMessage,
      unmarshal_result MP data = Ok m ->
      let s1 :=
        snd (Invoke c code isQuery from to value limit method params s) in
      snd (HandleMessage msgRESULT data s1)
      = {| st_proxy := p;
           st_trace :=
             announce (EvOnResult c (res_Status m) (res_StepUsed m)
                                  (res_Result m) :: st_trace s1) |})
  /\ (forall m : getAPIMessage,
      unmarshal_getAPI MP data = Ok m ->
      let s1 := snd (GetAPI c code s) in
      snd (HandleMessage msgGETAPI data s1)
      = {| st_proxy := p;
           st_trace :=
             announce (EvOnAPI c (api_Status m) (api_Info m)
                       :: st_trace s1) |}).
Proof.
  intros Hq p announce. subst p announce.
  destruct s as [[r v u t f] tr].
  split; intros m Hm s1; subst s1.
  - erewrite RESULT_run; [|exact Hm|reflexivity].
    rewrite readiness_run, reentered_quiet by exact Hq.
    unfold idle. simpl. destruct (is_nil f && negb r); reflexivity.
  - erewrite GETAPI_run; [|exact Hm|reflexivity].
    rewrite readiness_run, reentered_quiet by exact Hq.
    unfold idle. simpl. destruct (is_nil f && negb r); reflexivity.
Qed.

(** ** Every frame gets one terminal callback *)

Lemma in_flight_counts (tr : Trace) :
  forall stk : list CallContext,
    in_flight tr stk ->
    length stk + terminal_callbacks tr = pushes tr.
Proof.
  unfold terminal_callbacks, pushes.
  induction tr as [|e tr IH]; intros stk H.
  - simpl in H. subst stk. reflexivity.
  - destruct e as [[[]| | |]| | | | | | | | | | | | |]; simpl in *;
      try (apply IH; exact H);
      try (destruct H as (rest & -> & H); specialize (IH _ H); simpl; lia);
      specialize (IH _ H); simpl in IH; lia.
Qed.

Lemma frame_contexts_length :
  forall f : @callFrame Address CallContext,
    length (frame_contexts f) = frame_depth f.
Proof.
  fix IH 1. intros [a c [g|]]; simpl; [rewrite IH|]; reflexivity.
Qed.

Lemma contexts_length (p : proxy) : length (contexts p) = depth p.
Proof.
  unfold contexts, depth. destruct (frame p) as [f|]; [|reflexivity].
  apply frame_contexts_length.
Qed.

(** X15. In every run from a fresh proxy, whether its messages were
    dispatched without error or not and whether it ends or panics, every
    frame that [Invoke] or [GetAPI] pushed is still on the stack or has had
    exactly one terminal callback: the depth plus the number of [OnResult]
    and [OnAPI] calls is the number of [Invoke] and [GetAPI] calls. *)
Theorem one_terminal_callback_per_frame (acts : list Action) :
  let s' := snd (run acts initial) in
  depth (st_proxy s') + terminal_callbacks (st_trace s')
  = pushes (st_trace s').
Proof.
  intros s'. rewrite <- contexts_length. apply in_flight_counts. subst s'.
  apply (run_rel stack_kept (fun _ => True)).
  - unfold stack_kept. auto.
  - apply stack_kept_trans.
  - intros a s _. apply step_stack_kept.
  - apply Forall_forall. auto.
  - reflexivity.
Qed.


End Properties.

(** * The properties on the scenarios *)

Section Scenarios.

Import Scenario.




(** A second [VERSION] message changes [version] and [uid]. *)
Lemma second_VERSION_rewrites_identity :
  identity (st_proxy (snd (exec quiet [version1]))) = (1%Z, "u", 0%nat)
  /\ identity (st_proxy (snd (exec quiet [version1; version2])))
     = (2%Z, "v", 0%nat)
  /\ identity (st_proxy (snd (exec quiet [version1; version2])))
     <> identity (st_proxy (snd (exec quiet [version1]))).
Proof.
  split; [|split]; [vm_compute; reflexivity..|].
  vm_compute. discriminate.
Qed.

Lemma identity_written_by_VERSION_only_witness :
  identity (st_proxy (snd (run "nil" kinds codec quiet
                             [Reserve; invoke1; result1; Host CallRelease]
                             (snd (exec quiet [version1])))))
  = identity (st_proxy (snd (exec quiet [version1]))).
Proof.
  destruct (identity_written_by_VERSION_only "nil" kinds codec quiet)
    as (Hrun & _).
  apply Hrun. repeat constructor; discriminate.
Defined.

(** [GETVALUE] on a fresh proxy: the dispatch panics, it reports no
    error. *)
Lemma GETVALUE_on_empty_stack_panics :
  fst (handle quiet msgGETVALUE [Byte.x01] fresh) = Panics
  /\ ~ (exists err, fst (handle quiet msgGETVALUE [Byte.x01] fresh)
                    = Returns err).
Proof.
  split; [reflexivity|]. intros [err H]. vm_compute in H. discriminate H.
Qed.

Lemma empty_stack_dispatch_witness :
  handle quiet msgRESULT [Byte.x00] fresh = (Panics, fresh)
  /\ handle quiet msgRESULT [] fresh = (Returns (Some "malformed"), fresh).
Proof.
  split.
  - apply (empty_stack_dispatch "nil" kinds codec quiet msgRESULT
             [Byte.x00] fresh); reflexivity.
  - apply (empty_stack_dispatch "nil" kinds codec quiet msgRESULT
             [] fresh); reflexivity.
Defined.

(** The host's invocation ends with a terminal [RESULT], and the manager
    tries [reserve] again: the flag is still set and [reserve] returns
    false. *)
Lemma terminal_pop_keeps_reservation :
  fst (exec quiet [version1; Reserve; invoke1; result1; Reserve])
  = Returns [RetError None; RetBool true; RetError None; RetError None;
             RetBool false]
  /\ reserved (st_proxy (snd (exec quiet [version1; Reserve; invoke1;
                                           result1])))
     = true
  /\ depth (st_proxy (snd (exec quiet [version1; Reserve; invoke1;
                                        result1])))
     = 0.
Proof. repeat split; vm_compute; reflexivity. Qed.

Lemma reserve_fails_until_release_witness :
  let s := snd (exec quiet [version1; Reserve]) in
  let s' := snd (run "nil" kinds codec quiet [invoke1; result1] s) in
  reserve s' = (Returns false, s').
Proof.
  intros s s'.
  destruct (reserve_fails_until_release "nil" kinds codec quiet)
    as (_ & _ & Hrun & _).
  apply (Hrun [invoke1; result1] s); reflexivity.
Defined.

(** [Release] on a proxy that is not reserved and has an empty stack calls
    nothing. *)
Lemma release_of_unreserved_is_silent :
  frame (st_proxy fresh) = None
  /\ Release quiet fresh = (Returns tt, fresh)
  /\ readies (st_trace (snd (Release quiet fresh))) = 0.
Proof. repeat split. Qed.

Lemma release_notifies_when_reserved_and_empty_witness :
  let s := snd (exec quiet [version1; Reserve]) in
  st_trace (snd (Release quiet s))
  = EvOnReady 0%nat (set_reserved false (st_proxy s)) :: st_trace s.
Proof.
  intros s.
  destruct (release_notifies_when_reserved_and_empty quiet s)
    as (_ & _ & _ & _ & Hready & _).
  destruct Hready as [H|H]; [reflexivity|reflexivity|exact H|].
  vm_compute in H. discriminate H.
Defined.

Lemma unknown_kind_rejected_witness :
  handle quiet msgVERSION [Byte.x03] fresh
  = (Returns (Some "UnknownSCOREName(martian)"),
     {| st_proxy := {| reserved := false; version := 1; uid := "u";
                       p_scoreType := 0%nat; frame := None |};
        st_trace := [] |}).
Proof.
  apply (unknown_kind_rejected "nil" kinds codec quiet fresh [Byte.x03]
           {| ver_Version := 1; ver_UID := "u"; ver_Type := "martian" |});
    reflexivity.
Defined.

(** The manager refuses the proxy after [VERSION]: the error is the result
    of the dispatch and the proxy closes nothing. *)
Lemma ready_error_after_VERSION_is_returned :
  fst (exec refusing [version1]) = Returns [RetError (Some "not accepted")]
  /\ count is_close (st_trace (snd (exec refusing [version1]))) = 0
  /\ readies (st_trace (snd (exec refusing [version1]))) = 1.
Proof. repeat split; vm_compute; reflexivity. Qed.

Lemma ready_error_handling_witness :
  let s := snd (exec refusing [Reserve]) in
  let p := set_reserved false (st_proxy s) in
  Release refusing s
  = (Returns tt,
     {| st_proxy := p;
        st_trace := EvClose :: EvOnReady (p_scoreType p) p :: st_trace s |}).
Proof.
  intros s p.
  destruct (ready_error_handling "nil" kinds codec refusing "not accepted")
    as (Hrel & _).
  apply (Hrel s); reflexivity.
Defined.

Lemma failed_send_keeps_frame_witness :
  Invoke broken_pipe 7%nat "c" false "hxA" "cxB" 0 100 "m" None fresh
  = (Returns (Some "broken pipe"),
     {| st_proxy :=
          {| reserved := false; version := 0; uid := EmptyString;
             p_scoreType := 0%nat;
             frame := Some {| addr := Some "cxB"; ctx := 7%nat;
                              prev := None |} |};
        st_trace :=
          [EvSend msgINVOKE
             (PInvoke {| inv_Code := "c"; inv_IsQry := false;
                         inv_From := "hxA"; inv_To := "cxB";
                         inv_Value := 0; inv_Limit := 100;
                         inv_Method := "m"; inv_Params := None |})] |})
  /\ depth (st_proxy (snd (GetAPI broken_pipe 7%nat "c" fresh))) = 1.
Proof.
  destruct (failed_send_keeps_frame broken_pipe fresh 7%nat "c" false
              "hxA" "cxB" 0 100 "m" None) as (Hinv & Hapi).
  split.
  - apply (Hinv "broken pipe"). reflexivity.
  - destruct (Hapi "broken pipe") as [Hrun Hdepth]; [reflexivity|].
    rewrite Hrun. exact Hdepth.
Defined.

(** ** Further runs *)

(** The host releases the proxy while its invocation is in flight: nothing
    is announced then, and the terminal [RESULT] announces the proxy once. *)
Example release_with_outstanding_call :
  readies (st_trace (snd (exec quiet [version1; Reserve; invoke1])))
  = 1
  /\ readies (st_trace (snd (exec quiet [version1; Reserve; invoke1;
                                         Host CallRelease])))
     = 1
  /\ readies (st_trace (snd (exec quiet [version1; Reserve; invoke1;
                                         Host CallRelease; result1])))
     = 2.
Proof. repeat split; vm_compute; reflexivity. Qed.

(** The host releases the proxy from inside [OnResult] of its outermost
    invocation: [Release] announces the proxy, and so does the readiness
    test that follows the callback. *)
Example release_inside_OnResult_announces_twice :
  readies (st_trace (snd (exec releasing [version1; Reserve; invoke1])))
  = 1
  /\ readies (st_trace (snd (exec releasing [version1; Reserve; invoke1;
                                             result1])))
     = 3.
Proof. split; vm_compute; reflexivity. Qed.

(** An engine of an unknown kind, then tags no case handles. *)
Example unhandled_tags :
  fst (exec quiet [martian; Deliver msgINVOKE []; Deliver 10%N []])
  = Returns [RetError (Some "UnknownSCOREName(martian)");
             RetError (Some "UnknownMessage(1)");
             RetError (Some "UnknownMessage(10)")].
Proof. vm_compute. reflexivity. Qed.

(** ** The further properties on the scenarios *)

Lemma sends_are_well_formed_witness :
  @sent_ok string string string string nat nat
    (EvSend msgRESULT
       (PResult {| res_Status := 0; res_StepUsed := 5;
                   res_Result := Some "nil" |}))
  = true.
Proof.
  apply (sends_are_well_formed "nil" kinds 0%nat codec quiet
           [version1; Reserve; invoke1; Deliver msgCALL [Byte.x00];
            Host (CallSendResult 7%nat 0 5 None)]).
  vm_compute. left. reflexivity.
Defined.

Lemma only_reserve_reserves_witness :
  reserved (st_proxy (snd (run "nil" kinds codec quiet
                             [version1; invoke1; result1; Host CallRelease]
                             fresh)))
  = false.
Proof.
  apply (only_reserve_reserves "nil" kinds codec quiet).
  - repeat constructor; discriminate.
  - reflexivity.
Defined.

Lemma undecodable_message_changes_nothing_witness :
  handle quiet msgRESULT [] busy = (Returns (Some "malformed"), busy).
Proof.
  apply (undecodable_message_changes_nothing "nil" kinds codec quiet).
  reflexivity.
Defined.

Lemma unhandled_tag_is_rejected_witness :
  handle quiet 12%N [] busy = (Returns (Some "UnknownMessage(12)"), busy)
  /\ handle quiet msgINVOKE [] busy
     = (Returns (Some "UnknownMessage(1)"), busy).
Proof.
  split.
  - apply (unhandled_tag_is_rejected "nil" kinds codec quiet 12%N).
    right. reflexivity.
  - apply (unhandled_tag_is_rejected "nil" kinds codec quiet msgINVOKE).
    left. reflexivity.
Defined.

Lemma reserve_then_release_witness :
  st_proxy (snd (Release quiet (snd (reserve fresh)))) = st_proxy fresh
  /\ readies (st_trace (snd (Release quiet (snd (reserve fresh))))) = 1.
Proof.
  destruct (reserve_then_release quiet fresh) as (_ & Hp & Hr);
    [reflexivity|].
  split; [exact Hp|exact Hr].
Defined.

Lemma subcall_caller_is_invoked_contract_witness :
  let s1 :=
    snd (Invoke quiet 7%nat "c" false "hxA" "cxB" 0 100 "m" None fresh) in
  handle quiet msgCALL [Byte.x00] s1
  = (Returns None,
     {| st_proxy := st_proxy s1;
        st_trace := EvOnCall 7%nat (Some "cxB") "cx02" 0 10 "m" None
                    :: st_trace s1 |}).
Proof.
  intros s1.
  destruct (subcall_caller_is_invoked_contract "nil" kinds codec quiet
              fresh 7%nat "c" false "hxA" "cxB" 0 100 "m" None [Byte.x00])
    as (Hcall & _).
  destruct (Hcall {| call_To := "cx02"; call_Value := 0; call_Limit := 10;
                     call_Method := "m"; call_Params := None |})
    as (Hinv & _); [reflexivity|].
  exact Hinv.
Defined.

Lemma kill_names_the_announced_uid_witness :
  st_trace (snd (Kill quiet (snd (handle quiet msgVERSION [Byte.x03] fresh))))
  = [EvKill "u"].
Proof.
  unfold handle.
  rewrite (kill_names_the_announced_uid "nil" kinds codec quiet fresh
             [Byte.x03]
             {| ver_Version := 1; ver_UID := "u"; ver_Type := "martian" |});
    reflexivity.
Defined.

Lemma intermediate_message_keeps_proxy_witness :
  st_proxy (snd (handle quiet msgGETVALUE [Byte.x01] busy)) = st_proxy busy.
Proof.
  apply (intermediate_message_keeps_proxy "nil" kinds codec quiet
           msgGETVALUE [Byte.x01] busy); reflexivity.
Defined.

Lemma invocation_round_trip_witness :
  let s1 :=
    snd (Invoke quiet 7%nat "c" false "hxA" "cxB" 0 100 "m" None fresh) in
  snd (handle quiet msgRESULT [Byte.x00] s1)
  = {| st_proxy := st_proxy fresh;
       st_trace := EvOnReady 0%nat (st_proxy fresh)
                   :: EvOnResult 7%nat 0 42 None :: st_trace s1 |}.
Proof.
  intros s1.
  destruct (invocation_round_trip "nil" kinds codec quiet fresh 7%nat "c"
              false "hxA" "cxB" 0 100 "m" None [Byte.x00])
    as (Hres & _); [reflexivity|].
  apply (Hres {| res_Status := 0; res_StepUsed := 42; res_Result := None |}).
  reflexivity.
Defined.

End Scenarios.
